(** * gochat: the avatar resolution chain of avatar.go and the room's live set

    A shallow embedding of [avatar.go]: the [Avatar] interface, its three
    implementations [AuthAvatar], [GravatarAvatar] and [FileSystemAvatar],
    and the fallback chain [TryAvatars].  Go strings are byte strings and
    are modelled by [string]; the [(string, error)] results are pairs; the
    one effect of the file, [ioutil.ReadDir], is modelled in a state monad
    over the file system.  From [main.go], the template handler and its
    [ServeHTTP], with explicit state passing for the handler. *)

From Stdlib Require Import String Ascii List Bool Arith Lia.
From stdpp Require Import base list gmap strings.

Local Open Scope string_scope.
Local Open Scope list_scope.

(** ** Errors *)

(** Go's [error] values as far as avatar.go tells them apart: [nil], the
    package variable [ErrNoAvatarURL], and every other error value (for
    instance the [*os.PathError] of a directory that cannot be opened). *)
Inductive error : Type :=
  | ErrNil
  | ErrNoAvatarURL
  | ErrOther (msg : string).

Definition error_is_nil (err : error) : bool :=
  match err with
  | ErrNil => true
  | _ => false
  end.

(** ** The file system and the monad of avatar.go's effects *)

(** [os.FileInfo], with the two methods avatar.go calls. *)
Record FileInfo : Type := mkFileInfo { Name : string; IsDir : bool }.

(** The directories that can be read, each with its entries in the order
    [ioutil.ReadDir] returns them; a name that is not bound is a directory
    that cannot be read. *)
Abbreviation FileSystem := (gmap string (list FileInfo)).

Definition IO (A : Type) : Type := FileSystem -> A * FileSystem.

#[export] Instance IO_ret : MRet IO := fun A x fs => (x, fs).

#[export] Instance IO_bind : MBind IO := fun A B k m fs =>
  let (x, fs') := m fs in k x fs'.

(** The result of a computation and the file system it leaves. *)
Definition result {A : Type} (m : IO A) (fs : FileSystem) : A := fst (m fs).
Definition after {A : Type} (m : IO A) (fs : FileSystem) : FileSystem := snd (m fs).

(** [ioutil.ReadDir]: the entries and a nil error, or a nil slice and the
    error of the failed open.  It only reads. *)
Definition ReadDir (dirname : string) : IO (list FileInfo * error) := fun fs =>
  match fs !! dirname with
  | Some files => ((files, ErrNil), fs)
  | None => (([], ErrOther ("open " +:+ dirname)), fs)
  end.

(** ** The string functions of the Go library that avatar.go calls *)

(** [os.IsPathSeparator] on Unix. *)
Definition IsPathSeparator (c : ascii) : bool := Ascii.eqb c "/"%char.

(** The loop of [filepath.Ext]:
    [for i := len(path) - 1; i >= 0 && !os.IsPathSeparator(path[i]); i--],
    with [n] standing for [i + 1]. *)
Fixpoint Ext_loop (path : string) (n : nat) : string :=
  match n with
  | O => ""
  | S i =>
      match String.get i path with
      | Some c =>
          if IsPathSeparator c then ""
          else if Ascii.eqb c "."%char
               then String.substring i (String.length path - i) path
               else Ext_loop path i
      | None => ""
      end
  end.

(** [filepath.Ext]: the suffix that starts at the last dot of the last
    element of the path, empty when there is none. *)
Definition Ext (path : string) : string := Ext_loop path (String.length path).

(** [strings.HasSuffix]. *)
Definition HasSuffix (s suffix : string) : bool :=
  (String.length suffix <=? String.length s)%nat &&
  String.eqb
    (String.substring (String.length s - String.length suffix)
                      (String.length suffix) s)
    suffix.

(** [strings.TrimSuffix]. *)
Definition TrimSuffix (s suffix : string) : string :=
  if HasSuffix s suffix
  then String.substring 0 (String.length s - String.length suffix) s
  else s.

(** ** Chat users *)

(** Modelled from the spec: the [ChatUser] interface is declared outside
    avatar.go; its contract exposes [UniqueID() -> string] and
    [AvatarURL() -> string] (possibly empty), both fixed for the lifetime
    of a connection. *)
Record ChatUser : Type := mkChatUser { UniqueID : string; AvatarURL : string }.

(** ** The Avatar interface and its implementations *)

(** [type Avatar interface { GetAvatarURL(ChatUser) (string, error) }] *)
Class Avatar (A : Type) : Type :=
  GetAvatarURL : A -> ChatUser -> IO (string * error).

(** A value of interface type [Avatar]: a dynamic type that implements
    the interface, and a value of it. *)
Record AvatarValue : Type :=
  mkAvatarValue { dynType : Type; dynImpl : Avatar dynType; dynValue : dynType }.

Definition iface {A : Type} `{Avatar A} (x : A) : AvatarValue :=
  mkAvatarValue A _ x.

(** A method call on an interface value goes to the dynamic type. *)
#[export] Instance AvatarValue_Avatar : Avatar AvatarValue := fun avatar =>
  @GetAvatarURL (dynType avatar) (dynImpl avatar) (dynValue avatar).

(** [type AuthAvatar struct{}] and [var UseAuthAvatar AuthAvatar] *)
Inductive AuthAvatar : Type := UseAuthAvatar.

#[export] Instance AuthAvatar_Avatar : Avatar AuthAvatar := fun _ u =>
  let url := AvatarURL u in
  if negb (String.eqb url "") then mret (url, ErrNil)
  else mret ("", ErrNoAvatarURL).

(** [type GravatarAvatar struct{}] and [var UseGravatar GravatarAvatar] *)
Inductive GravatarAvatar : Type := UseGravatar.

#[export] Instance GravatarAvatar_Avatar : Avatar GravatarAvatar := fun _ u =>
  mret ("//www.gravatar.com/avatar/" +:+ UniqueID u, ErrNil).

(** [type FileSystemAvatar struct{}] and
    [var UseFileSystemAvatar FileSystemAvatar] *)
Inductive FileSystemAvatar : Type := UseFileSystemAvatar.

(** The [for _, file := range files] loop of
    [FileSystemAvatar.GetAvatarURL], with the return after it. *)
Fixpoint FileSystemAvatar_range (u : ChatUser) (files : list FileInfo)
  : string * error :=
  match files with
  | [] => ("", ErrNoAvatarURL)
  | file :: files' =>
      if IsDir file then FileSystemAvatar_range u files'
      else
        let filename := Name file in
        if String.eqb (UniqueID u) (TrimSuffix filename (Ext filename))
        then ("/avatars/" +:+ filename, ErrNil)
        else FileSystemAvatar_range u files'
  end.

#[export] Instance FileSystemAvatar_Avatar : Avatar FileSystemAvatar := fun _ u =>
  '(files, err) ← ReadDir "avatars";
  if negb (error_is_nil err) then mret ("", ErrNoAvatarURL)
  else mret (FileSystemAvatar_range u files).

(** [type TryAvatars []Avatar] *)
Abbreviation TryAvatars := (list AvatarValue).

(** [TryAvatars.GetAvatarURL]: the strategies are called one after the
    other, each on the file system the calls before it left. *)
Fixpoint TryAvatars_GetAvatarURL (a : TryAvatars) (u : ChatUser)
  : IO (string * error) :=
  match a with
  | [] => mret ("", ErrNoAvatarURL)
  | avatar :: a' =>
      '(url, err) ← GetAvatarURL avatar u;
      if error_is_nil err then mret (url, ErrNil)
      else TryAvatars_GetAvatarURL a' u
  end.

#[export] Instance TryAvatars_Avatar : Avatar TryAvatars := TryAvatars_GetAvatarURL.

(** [all_fail u a fs fs']: called one after the other from the file system
    [fs], every strategy of [a] returns a non-nil error for [u], and the
    last call leaves the file system [fs']. *)
Inductive all_fail (u : ChatUser) : TryAvatars -> FileSystem -> FileSystem -> Prop :=
  | all_fail_nil (fs : FileSystem) : all_fail u [] fs fs
  | all_fail_cons (avatar : AvatarValue) (a' : TryAvatars)
      (fs fs1 fs2 : FileSystem) (url : string) (err : error) :
      GetAvatarURL avatar u fs = ((url, err), fs1) ->
      err <> ErrNil ->
      all_fail u a' fs1 fs2 ->
      all_fail u (avatar :: a') fs fs2.

(** The three strategies that avatar.go itself defines. *)
Inductive builtin : AvatarValue -> Prop :=
  | builtin_auth : builtin (iface UseAuthAvatar)
  | builtin_gravatar : builtin (iface UseGravatar)
  | builtin_filesystem : builtin (iface UseFileSystemAvatar).

(** The name of a directory entry minus its extension, as
    [FileSystemAvatar.GetAvatarURL] computes it. *)
Definition stem (file : FileInfo) : string :=
  TrimSuffix (Name file) (Ext (Name file)).

(** What [ioutil.ReadDir("avatars")] lists. *)
Definition listing (fs : FileSystem) : list FileInfo :=
  default [] (fs !! "avatars").

(** The test that the loop of [FileSystemAvatar.GetAvatarURL] makes on
    one entry: not a directory, and the stem is the user's identifier. *)
Definition matches (u : ChatUser) (file : FileInfo) : bool :=
  negb (IsDir file) && String.eqb (UniqueID u) (stem file).

(** A byte string with no dot and no path separator in it. *)
Fixpoint plain (s : string) : bool :=
  match s with
  | EmptyString => true
  | String c s' =>
      negb (Ascii.eqb c "."%char) && negb (IsPathSeparator c) && plain s'
  end.

(** ** The data of the examples *)

(** The user of the spec's examples. *)
Definition u42 : ChatUser := mkChatUser "u42" "".

(** The chain of the spec's examples: the auth provider's URL first, then
    a local file, then Gravatar. *)
Definition chain : TryAvatars :=
  [iface UseAuthAvatar; iface UseFileSystemAvatar; iface UseGravatar].

Definition avatars_png : FileSystem :=
  {[ "avatars" := [mkFileInfo "u42.png" false] ]}.

Definition avatars_jpg_png : FileSystem :=
  {[ "avatars" := [mkFileInfo "u42.jpg" false; mkFileInfo "u42.png" false] ]}.

Definition avatars_dir_and_files : FileSystem :=
  {[ "avatars" := [mkFileInfo "u42.d" true; mkFileInfo "u42.jpg" false;
                   mkFileInfo "u42.png" false] ]}.

Definition avatars_and_templates : FileSystem :=
  <[ "templates" := [mkFileInfo "chat.html" false] ]> avatars_png.

(** The order that the comment above [TryAvatars.GetAvatarURL] gives:
    FileSystemAvatar, then AuthAvatar, then Gravatar. *)
Definition documented_chain : TryAvatars :=
  [iface UseFileSystemAvatar; iface UseAuthAvatar; iface UseGravatar].

(** A strategy that is not one of avatar.go's: it fails with an error of
    its own and a URL beside it. *)
Inductive BrokenAvatar : Type := UseBrokenAvatar.

#[export] Instance BrokenAvatar_Avatar : Avatar BrokenAvatar := fun _ _ =>
  mret ("http://broken.example/", ErrOther "timeout").

Definition john_doe : ChatUser := mkChatUser "john.doe" "".

Definition avatars_john_doe : FileSystem :=
  {[ "avatars" := [mkFileInfo "john.doe" false] ]}.

(** ** The room's live set *)

(** Modelled from the spec: the Room and its coordination loop (room.go is
    not among the sources).  The Room owns the set of live connections,
    keys unique, insertion order irrelevant.  "Join(connection): add to
    live set."  "Leave(connection): remove from live set if present;
    removing an already-absent connection is a no-op, not an error." *)
Module Room.

(** A connection's unique handle. *)
Abbreviation Connection := nat.

Record t : Type := mk { live : gset Connection }.

Inductive result : Type :=
  | Ok (r : t)
  | Error (msg : string).

Definition Join (c : Connection) (r : t) : result :=
  Ok (mk ({[c]} ∪ live r)).

Definition Leave (c : Connection) (r : t) : result :=
  if decide (c ∈ live r) then Ok (mk (live r ∖ {[c]})) else Ok r.

(** The coordination loop handles one event after the other; an error
    would stop it. *)
Inductive Event : Type :=
  | EJoin (c : Connection)
  | ELeave (c : Connection).

Definition step (r : t) (e : Event) : result :=
  match e with
  | EJoin c => Join c r
  | ELeave c => Leave c r
  end.

Fixpoint run (r : t) (events : list Event) : result :=
  match events with
  | [] => Ok r
  | e :: events' =>
      match step r e with
      | Ok r' => run r' events'
      | Error msg => Error msg
      end
  end.

End Room.

(** ** The template handler of main.go *)

(** A call returns, or panics. *)
Inductive outcome (A : Type) : Type :=
  | Returns (x : A)
  | Panics.

Arguments Returns {A} x.
Arguments Panics {A}.

(** The values that [ServeHTTP] puts into its
    [map[string]interface{}]: the host, a string, and the user data that
    objx decodes from the auth cookie. *)
Inductive value (U : Type) : Type :=
  | VString (s : string)
  | VObj (o : U).

Arguments VString {U} s.
Arguments VObj {U} o.

(** What [ServeHTTP] calls in Go's libraries and in objx, as far as it
    relies on them: the template files on disk and
    [template.ParseFiles], which parses the file at a path or returns an
    error; [filepath.Join]; [objx.FromBase64], which fails on a string it
    cannot decode; and [Template.Execute], with the bytes it writes to
    the response. *)
Class TemplateLib : Type := {
  Files : Type;
  Template : Type;
  UserData : Type;
  Join : string -> string -> string;
  ParseFiles : string -> Files -> Template + error;
  FromBase64 : string -> option UserData;
  Execute : Template -> gmap string (value UserData) -> string
}.

(** [*http.Request]: the host and the cookies, name and value, in the
    order of the header. *)
Record Request : Type := mkRequest { Host : string; Cookies : list (string * string) }.

(** [Request.Cookie]: the value of the first cookie of that name, or
    nothing where Go returns [ErrNoCookie]. *)
Definition Cookie (r : Request) (name : string) : option string :=
  match List.find (fun c => String.eqb (fst c) name) (Cookies r) with
  | Some c => Some (snd c)
  | None => None
  end.

(** [type templateHandler struct]: [once] is the done flag of the
    [sync.Once], [templ] is nil until a template is parsed. *)
Record templateHandler `{TemplateLib} : Type := mkTemplateHandler {
  once : bool;
  filename : string;
  templ : option Template
}.

(** [t.once.Do(func() { t.templ = template.Must(template.ParseFiles(
    filepath.Join("templates", t.filename))) })], for requests served
    one after the other: the function runs when the [Once] is not done;
    the [Once] is done after the call also when the function panics, as
    [template.Must] does on an error, before [t.templ] is assigned. *)
Definition once_Do_parse `{TemplateLib} (t : templateHandler) (files : Files)
  : outcome unit * templateHandler :=
  if once t then (Returns tt, t)
  else
    match ParseFiles (Join "templates" (filename t)) files with
    | inl parsed => (Returns tt, mkTemplateHandler _ true (filename t) (Some parsed))
    | inr _ => (Panics, mkTemplateHandler _ true (filename t) (templ t))
    end.

(** The [data] map of [ServeHTTP]: the host, and the user data when the
    request has an auth cookie; [objx.MustFromBase64] panics on a value
    it cannot decode. *)
Definition request_data `{TemplateLib} (r : Request)
  : outcome (gmap string (value UserData)) :=
  let data : gmap string (value UserData) := {[ "Host" := VString (Host r) ]} in
  match Cookie r "auth" with
  | Some authCookie =>
      match FromBase64 authCookie with
      | Some userData => Returns (<[ "UserData" := VObj userData ]> data)
      | None => Panics
      end
  | None => Returns data
  end.

(** [t.templ.Execute(w, data)]: on a nil [t.templ] the call panics. *)
Definition templ_Execute `{TemplateLib} (t : templateHandler)
    (data : gmap string (value UserData)) : outcome string :=
  match templ t with
  | Some parsed => Returns (Execute parsed data)
  | None => Panics
  end.

(** [templateHandler.ServeHTTP]: what is written to the response, or a
    panic, and the handler as the call leaves it. *)
Definition ServeHTTP `{TemplateLib} (t : templateHandler) (files : Files)
    (r : Request) : outcome string * templateHandler :=
  match once_Do_parse t files with
  | (Panics, t1) => (Panics, t1)
  | (Returns _, t1) =>
      match request_data r with
      | Panics => (Panics, t1)
      | Returns data => (templ_Execute t1 data, t1)
      end
  end.

(** Requests served one after the other by one handler, each with the
    template files as they are on disk when it arrives; a panic ends the
    request, not the server. *)
Fixpoint serve `{TemplateLib} (t : templateHandler)
    (requests : list (Files * Request)) : list (outcome string) * templateHandler :=
  match requests with
  | [] => ([], t)
  | (files, r) :: requests' =>
      let (response, t1) := ServeHTTP t files r in
      let (responses, t2) := serve t1 requests' in
      (response :: responses, t2)
  end.

(** A small instance for the examples: files are texts by path, a
    template is the text of its file, the user data is the cookie value
    after a "b64:" prefix, and a template is rendered as its text
    followed by the host. *)
Definition toy_lib : TemplateLib := {|
  Files := gmap string string;
  Template := string;
  UserData := string;
  Join := fun dir name => dir +:+ "/" +:+ name;
  ParseFiles := fun path files =>
    match files !! path with
    | Some text => inl text
    | None => inr (ErrOther ("open " +:+ path))
    end;
  FromBase64 := fun v =>
    if String.prefix "b64:" v then Some (String.substring 4 (String.length v - 4) v)
    else None;
  Execute := fun parsed data =>
    match data !! "Host" with
    | Some (VString host) => parsed +:+ host
    | _ => parsed
    end
|}.

Definition chat_handler : @templateHandler toy_lib :=
  @mkTemplateHandler toy_lib false "chat.html" None.

Definition no_templates : @Files toy_lib := ∅.

Definition chat_template : @Files toy_lib :=
  {[ "templates/chat.html" := "chat at " ]}.

Definition plain_request : Request := mkRequest "localhost:8080" [].

Definition bad_cookie_request : Request :=
  mkRequest "localhost:8080" [("auth", "garbage")].

(** ** Examples *)

Example Ext_png : Ext "u42.png" = ".png".
Proof. reflexivity. Qed.

Example Ext_tar_gz : Ext "a.tar.gz" = ".gz".
Proof. reflexivity. Qed.

Example Ext_none : Ext "u42" = "".
Proof. reflexivity. Qed.

Example Ext_dir_dot : Ext "a.b/c" = "".
Proof. reflexivity. Qed.

Example TrimSuffix_png : TrimSuffix "u42.png" (Ext "u42.png") = "u42".
Proof. reflexivity. Qed.

Example TrimSuffix_hidden : TrimSuffix ".bashrc" (Ext ".bashrc") = "".
Proof. reflexivity. Qed.

Example auth_empty :
  GetAvatarURL UseAuthAvatar u42 avatars_png = (("", ErrNoAvatarURL), avatars_png).
Proof. reflexivity. Qed.

Example gravatar_u42 :
  result (GetAvatarURL UseGravatar u42) avatars_png
  = ("//www.gravatar.com/avatar/u42", ErrNil).
Proof. reflexivity. Qed.

Example filesystem_u42 :
  result (GetAvatarURL UseFileSystemAvatar u42) avatars_png
  = ("/avatars/u42.png", ErrNil).
Proof. vm_compute. reflexivity. Qed.

Example filesystem_unreadable :
  result (GetAvatarURL UseFileSystemAvatar u42) ∅ = ("", ErrNoAvatarURL).
Proof. vm_compute. reflexivity. Qed.

(** ** The monad and the chain, unfolded *)

Lemma TryAvatars_nil (u : ChatUser) (fs : FileSystem) :
  GetAvatarURL ([] : TryAvatars) u fs = (("", ErrNoAvatarURL), fs).
Proof. reflexivity. Qed.

Lemma TryAvatars_cons (avatar : AvatarValue) (a' : TryAvatars)
    (u : ChatUser) (fs : FileSystem) :
  GetAvatarURL (avatar :: a') u fs =
  match GetAvatarURL avatar u fs with
  | ((url, err), fs1) =>
      if error_is_nil err then ((url, ErrNil), fs1)
      else GetAvatarURL a' u fs1
  end.
Proof.
  unfold GetAvatarURL at 1, TryAvatars_Avatar. simpl.
  unfold mbind, IO_bind.
  destruct (GetAvatarURL avatar u fs) as [[url err] fs1].
  destruct (error_is_nil err); reflexivity.
Qed.

Lemma error_is_nil_true (err : error) : error_is_nil err = true <-> err = ErrNil.
Proof. destruct err; simpl; split; congruence. Qed.

Lemma error_is_nil_false (err : error) : error_is_nil err = false <-> err <> ErrNil.
Proof. destruct err; simpl; split; congruence. Qed.

Lemma TryAvatars_all_fail (u : ChatUser) (a : TryAvatars) (fs fs' : FileSystem) :
  all_fail u a fs fs' ->
  GetAvatarURL a u fs = (("", ErrNoAvatarURL), fs').
Proof.
  induction 1 as [fs | avatar a' fs fs1 fs2 url err Hcall Herr _ IH].
  - apply TryAvatars_nil.
  - rewrite TryAvatars_cons, Hcall.
    apply error_is_nil_false in Herr. rewrite Herr. exact IH.
Qed.

Lemma TryAvatars_skip_failed (u : ChatUser) (pre rest : TryAvatars)
    (fs fs1 : FileSystem) :
  all_fail u pre fs fs1 ->
  GetAvatarURL (pre ++ rest) u fs = GetAvatarURL rest u fs1.
Proof.
  induction 1 as [fs | avatar a' fs fs1 fs2 url err Hcall Herr _ IH].
  - reflexivity.
  - simpl. rewrite TryAvatars_cons, Hcall.
    apply error_is_nil_false in Herr. rewrite Herr. exact IH.
Qed.

Lemma TryAvatars_cases (u : ChatUser) (a : TryAvatars) (fs : FileSystem) :
  (exists pre avatar post fs1 fs2 url,
      a = pre ++ avatar :: post /\ all_fail u pre fs fs1 /\
      GetAvatarURL avatar u fs1 = ((url, ErrNil), fs2))
  \/ (exists fs', all_fail u a fs fs').
Proof.
  revert fs. induction a as [| avatar a' IH]; intros fs.
  - right. exists fs. constructor.
  - destruct (GetAvatarURL avatar u fs) as [[url err] fs1] eqn:Hcall.
    destruct (error_is_nil err) eqn:Herr.
    + apply error_is_nil_true in Herr. subst err.
      left. exists [], avatar, a', fs, fs1, url.
      split; [reflexivity | split; [constructor | exact Hcall]].
    + apply error_is_nil_false in Herr.
      destruct (IH fs1) as [(pre & s & post & fs2 & fs3 & url' & -> & Hpre & Hs) | [fs' Hall]].
      * left. exists (avatar :: pre), s, post, fs2, fs3, url'.
        split; [reflexivity | split; [| exact Hs]].
        econstructor; eassumption.
      * right. exists fs'. econstructor; eassumption.
Qed.

(** ** TryAvatars *)

(** C8: on the empty chain, [TryAvatars.GetAvatarURL] returns the empty
    URL and [ErrNoAvatarURL] for every user, and leaves the file system as
    it was. *)
Theorem TryAvatars_empty_not_found (u : ChatUser) (fs : FileSystem) :
  GetAvatarURL ([] : TryAvatars) u fs = (("", ErrNoAvatarURL), fs).
Proof.
  unfold GetAvatarURL, TryAvatars_Avatar, TryAvatars_GetAvatarURL.
  unfold mret, IO_ret. reflexivity.
Qed.

(** C1: for every chain [a], user and file system: when the strategies
    before [avatar] in the chain all fail and [avatar] then returns
    [(url, nil)], the chain returns [(url, nil)], whatever comes after
    [avatar]; the chain's error is [ErrNoAvatarURL] if and only if every
    strategy of the chain fails, and then the URL is empty; and one of the
    two cases always applies. *)
Theorem TryAvatars_first_success (a : TryAvatars) (u : ChatUser) (fs : FileSystem) :
  (forall pre avatar post fs1 fs2 url,
      a = pre ++ avatar :: post ->
      all_fail u pre fs fs1 ->
      GetAvatarURL avatar u fs1 = ((url, ErrNil), fs2) ->
      GetAvatarURL a u fs = ((url, ErrNil), fs2))
  /\ (snd (result (GetAvatarURL a u) fs) = ErrNoAvatarURL
      <-> exists fs', all_fail u a fs fs')
  /\ (forall fs', all_fail u a fs fs' ->
      GetAvatarURL a u fs = (("", ErrNoAvatarURL), fs'))
  /\ ((exists pre avatar post fs1 fs2 url,
          a = pre ++ avatar :: post /\ all_fail u pre fs fs1 /\
          GetAvatarURL avatar u fs1 = ((url, ErrNil), fs2))
      \/ (exists fs', all_fail u a fs fs')).
Proof.
  assert (Hfirst : forall pre avatar post fs1 fs2 url,
             a = pre ++ avatar :: post ->
             all_fail u pre fs fs1 ->
             GetAvatarURL avatar u fs1 = ((url, ErrNil), fs2) ->
             GetAvatarURL a u fs = ((url, ErrNil), fs2)).
  { intros pre avatar post fs1 fs2 url -> Hpre Hcall.
    rewrite (TryAvatars_skip_failed u pre (avatar :: post) fs fs1 Hpre).
    rewrite TryAvatars_cons, Hcall. reflexivity. }
  split; [exact Hfirst |].
  split; [| split; [apply TryAvatars_all_fail | apply TryAvatars_cases]].
  split.
  - intros Herr.
    destruct (TryAvatars_cases u a fs)
      as [(pre & s & post & fs1 & fs2 & url & Heq & Hpre & Hs) | Hall];
      [| exact Hall].
    unfold result in Herr.
    rewrite (Hfirst _ _ _ _ _ _ Heq Hpre Hs) in Herr. discriminate Herr.
  - intros [fs' Hall]. unfold result.
    rewrite (TryAvatars_all_fail u a fs fs' Hall). reflexivity.
Qed.

(** ** AuthAvatar *)

Lemma AuthAvatar_call (u : ChatUser) (fs : FileSystem) :
  GetAvatarURL UseAuthAvatar u fs =
  (if String.eqb (AvatarURL u) "" then ("", ErrNoAvatarURL)
   else (AvatarURL u, ErrNil), fs).
Proof.
  unfold GetAvatarURL, AuthAvatar_Avatar.
  destruct (String.eqb (AvatarURL u) ""); reflexivity.
Qed.

(** C3: [AuthAvatar.GetAvatarURL] returns a nil error if and only if the
    user's [AvatarURL()] is not the empty string; it then returns exactly
    that URL; for an empty [AvatarURL()] it returns [("", ErrNoAvatarURL)]. *)
Theorem AuthAvatar_succeeds_iff_url (u : ChatUser) (fs : FileSystem) :
  (snd (result (GetAvatarURL UseAuthAvatar u) fs) = ErrNil <-> AvatarURL u <> "")
  /\ (AvatarURL u <> "" ->
      result (GetAvatarURL UseAuthAvatar u) fs = (AvatarURL u, ErrNil))
  /\ (AvatarURL u = "" ->
      result (GetAvatarURL UseAuthAvatar u) fs = ("", ErrNoAvatarURL)).
Proof.
  unfold result. rewrite AuthAvatar_call. simpl.
  destruct (String.eqb_spec (AvatarURL u) "") as [Heq | Hne]; simpl.
  - repeat split; intros; congruence.
  - repeat split; intros; congruence.
Qed.

(** ** GravatarAvatar *)

Lemma GravatarAvatar_call (u : ChatUser) (fs : FileSystem) :
  GetAvatarURL UseGravatar u fs =
  (("//www.gravatar.com/avatar/" +:+ UniqueID u, ErrNil), fs).
Proof. reflexivity. Qed.

Lemma append_inj_r (p s t : string) : p +:+ s = p +:+ t -> s = t.
Proof.
  induction p as [| c p IH]; simpl; intros H.
  - exact H.
  - injection H as H. exact (IH H).
Qed.

(** C9: [GravatarAvatar.GetAvatarURL] returns exactly
    ["//www.gravatar.com/avatar/"] followed by the [UniqueID()] as it is,
    with a nil error; users with different identifiers get different
    URLs. *)
Theorem GravatarAvatar_raw_id (u1 u2 : ChatUser) (fs1 fs2 : FileSystem) :
  GetAvatarURL UseGravatar u1 fs1 =
    (("//www.gravatar.com/avatar/" +:+ UniqueID u1, ErrNil), fs1)
  /\ (UniqueID u1 <> UniqueID u2 ->
      fst (result (GetAvatarURL UseGravatar u1) fs1) <>
      fst (result (GetAvatarURL UseGravatar u2) fs2)).
Proof.
  split; [reflexivity |].
  intros Hne Heq. unfold result in Heq. rewrite !GravatarAvatar_call in Heq.
  simpl in Heq. apply append_inj_r in Heq. contradiction.
Qed.

(** C4: for every user [GravatarAvatar.GetAvatarURL] returns a nil error
    and the URL that it derives from the user's [UniqueID()], the
    Gravatar address followed by the identifier, leaving the file system
    as it was; the result is the same for users with the same
    [UniqueID()], on any file system; a chain that contains [UseGravatar]
    returns a nil error, hence never [ErrNoAvatarURL], whatever its other
    strategies; and when the strategies before [UseGravatar] all fail,
    the chain returns that Gravatar URL. *)
Theorem GravatarAvatar_always_succeeds (u : ChatUser) (fs : FileSystem) :
  GetAvatarURL UseGravatar u fs
  = (("//www.gravatar.com/avatar/" +:+ UniqueID u, ErrNil), fs)
  /\ snd (result (GetAvatarURL UseGravatar u) fs) = ErrNil
  /\ (forall u' fs', UniqueID u' = UniqueID u ->
      result (GetAvatarURL UseGravatar u') fs'
      = result (GetAvatarURL UseGravatar u) fs)
  /\ (forall a : TryAvatars, iface UseGravatar ∈ a ->
      snd (result (GetAvatarURL a u) fs) = ErrNil
      /\ snd (result (GetAvatarURL a u) fs) <> ErrNoAvatarURL)
  /\ (forall (pre post : TryAvatars) (fs1 : FileSystem),
      all_fail u pre fs fs1 ->
      GetAvatarURL (pre ++ iface UseGravatar :: post) u fs
      = (("//www.gravatar.com/avatar/" +:+ UniqueID u, ErrNil), fs1)).
Proof.
  split; [apply GravatarAvatar_call |].
  split; [reflexivity |]. split; [| split].
  - intros u' fs' Hid. unfold result. rewrite !GravatarAvatar_call. simpl.
    rewrite Hid. reflexivity.
  - intros a Hin.
    assert (Hnil : snd (result (GetAvatarURL a u) fs) = ErrNil).
    { revert fs. induction a as [| avatar a' IH]; intros fs.
      - apply elem_of_nil in Hin. contradiction.
      - unfold result. rewrite TryAvatars_cons.
        destruct (GetAvatarURL avatar u fs) as [[url err] fs1] eqn:Hcall.
        destruct (error_is_nil err) eqn:Herr; [reflexivity |].
        apply elem_of_cons in Hin as [<- | Hin].
        + unfold GetAvatarURL at 1, AvatarValue_Avatar in Hcall. simpl in Hcall.
          rewrite GravatarAvatar_call in Hcall.
          injection Hcall as _ <- _. discriminate Herr.
        + exact (IH Hin fs1). }
    split; [exact Hnil | rewrite Hnil; discriminate].
  - intros pre post fs1 Hpre.
    rewrite (TryAvatars_skip_failed u pre (iface UseGravatar :: post) fs fs1 Hpre).
    rewrite TryAvatars_cons.
    change (GetAvatarURL (iface UseGravatar) u fs1)
      with (GetAvatarURL UseGravatar u fs1).
    rewrite GravatarAvatar_call. reflexivity.
Qed.

(** ** FileSystemAvatar *)

Lemma matches_spec (u : ChatUser) (file : FileInfo) :
  matches u file = true <-> IsDir file = false /\ stem file = UniqueID u.
Proof.
  unfold matches. rewrite andb_true_iff, negb_true_iff, String.eqb_eq.
  split; intros [Hdir Hstem]; split; congruence.
Qed.

Lemma matches_false (u : ChatUser) (file : FileInfo) :
  matches u file = false <-> (IsDir file = false -> stem file <> UniqueID u).
Proof.
  rewrite <- not_true_iff_false, matches_spec. split.
  - intros Hno Hdir Hstem. apply Hno. split; assumption.
  - intros Hno [Hdir Hstem]. exact (Hno Hdir Hstem).
Qed.

Lemma range_cons (u : ChatUser) (file : FileInfo) (files : list FileInfo) :
  FileSystemAvatar_range u (file :: files) =
  if matches u file then ("/avatars/" +:+ Name file, ErrNil)
  else FileSystemAvatar_range u files.
Proof.
  unfold matches, stem. simpl. destruct (IsDir file); reflexivity.
Qed.

Lemma range_first (u : ChatUser) (pre : list FileInfo) (file : FileInfo)
    (post : list FileInfo) :
  (forall g, g ∈ pre -> matches u g = false) ->
  matches u file = true ->
  FileSystemAvatar_range u (pre ++ file :: post)
  = ("/avatars/" +:+ Name file, ErrNil).
Proof.
  intros Hpre Hfile. induction pre as [| g pre IH].
  - simpl app. rewrite range_cons, Hfile. reflexivity.
  - change ((g :: pre) ++ file :: post) with (g :: (pre ++ file :: post)).
    rewrite range_cons, (Hpre g) by apply list_elem_of_here.
    apply IH. intros g' Hin. apply Hpre. apply list_elem_of_further, Hin.
Qed.

Lemma range_none (u : ChatUser) (files : list FileInfo) :
  (forall g, g ∈ files -> matches u g = false) ->
  FileSystemAvatar_range u files = ("", ErrNoAvatarURL).
Proof.
  induction files as [| g files IH]; intros Hno; [reflexivity |].
  rewrite range_cons, (Hno g) by apply list_elem_of_here.
  apply IH. intros g' Hin. apply Hno. apply list_elem_of_further, Hin.
Qed.

Lemma range_cases (u : ChatUser) (files : list FileInfo) :
  (exists pre file post,
      files = pre ++ file :: post /\
      (forall g, g ∈ pre -> matches u g = false) /\
      matches u file = true)
  \/ (forall g, g ∈ files -> matches u g = false).
Proof.
  induction files as [| g files IH].
  - right. intros g Hin. apply elem_of_nil in Hin. contradiction.
  - destruct (matches u g) eqn:Hg.
    + left. exists [], g, files. split; [reflexivity | split; [| exact Hg]].
      intros g' Hin. apply elem_of_nil in Hin. contradiction.
    + destruct IH as [(pre & file & post & -> & Hpre & Hfile) | Hno].
      * left. exists (g :: pre), file, post.
        split; [reflexivity | split; [| exact Hfile]].
        intros g' Hin. apply elem_of_cons in Hin as [-> | Hin]; auto.
      * right. intros g' Hin. apply elem_of_cons in Hin as [-> | Hin]; auto.
Qed.

Lemma FileSystemAvatar_call (u : ChatUser) (fs : FileSystem) :
  GetAvatarURL UseFileSystemAvatar u fs =
  (match fs !! "avatars" with
   | Some files => FileSystemAvatar_range u files
   | None => ("", ErrNoAvatarURL)
   end, fs).
Proof.
  unfold GetAvatarURL, FileSystemAvatar_Avatar, mbind, IO_bind, ReadDir.
  destruct (fs !! "avatars"); reflexivity.
Qed.

Lemma listing_ReadDir (fs : FileSystem) :
  listing fs = fst (result (ReadDir "avatars") fs).
Proof.
  unfold listing, result, ReadDir. destruct (fs !! "avatars"); reflexivity.
Qed.

Lemma FileSystemAvatar_listing (u : ChatUser) (fs : FileSystem) :
  result (GetAvatarURL UseFileSystemAvatar u) fs
  = FileSystemAvatar_range u (listing fs).
Proof.
  unfold result, listing. rewrite FileSystemAvatar_call.
  destruct (fs !! "avatars"); reflexivity.
Qed.

(** C2: [FileSystemAvatar.GetAvatarURL] returns a nil error if and only
    if the listing of the avatars directory has an entry that is not a
    directory and whose name minus its extension is the user's
    [UniqueID()]; the URL is then ["/avatars/"] followed by the name of
    such an entry; every failure is [("", ErrNoAvatarURL)], and so is the
    result for a directory that cannot be read. *)
Theorem FileSystemAvatar_succeeds_iff_file (u : ChatUser) (fs : FileSystem) :
  (snd (result (GetAvatarURL UseFileSystemAvatar u) fs) = ErrNil
   <-> exists file, file ∈ listing fs /\ IsDir file = false /\
                    stem file = UniqueID u)
  /\ (snd (result (GetAvatarURL UseFileSystemAvatar u) fs) = ErrNil ->
      exists file, file ∈ listing fs /\ IsDir file = false /\
                   stem file = UniqueID u /\
                   fst (result (GetAvatarURL UseFileSystemAvatar u) fs)
                   = "/avatars/" +:+ Name file)
  /\ (snd (result (GetAvatarURL UseFileSystemAvatar u) fs) <> ErrNil ->
      result (GetAvatarURL UseFileSystemAvatar u) fs = ("", ErrNoAvatarURL))
  /\ (fs !! "avatars" = None ->
      GetAvatarURL UseFileSystemAvatar u fs = (("", ErrNoAvatarURL), fs)).
Proof.
  rewrite FileSystemAvatar_listing.
  destruct (range_cases u (listing fs))
    as [(pre & file & post & Hsplit & Hpre & Hfile) | Hno].
  - rewrite Hsplit, (range_first u pre file post Hpre Hfile). simpl.
    assert (Hin : file ∈ pre ++ file :: post)
      by (apply elem_of_app; right; apply list_elem_of_here).
    apply matches_spec in Hfile as [Hdir Hstem].
    split; [split; [intros _; exists file; auto | reflexivity] |].
    split; [intros _; exists file; auto |].
    split; [congruence |].
    intros Hnone. exfalso. unfold listing in Hsplit. rewrite Hnone in Hsplit.
    simpl in Hsplit. destruct pre; discriminate Hsplit.
  - rewrite (range_none u (listing fs) Hno). simpl.
    split; [split; [discriminate |] |].
    + intros (file & Hin & Hdir & Hstem).
      apply Hno in Hin. apply matches_false in Hin; [contradiction | exact Hdir].
    + split; [discriminate |]. split; [reflexivity |].
      intros Hnone. rewrite FileSystemAvatar_call, Hnone. reflexivity.
Qed.

(** C10: with the avatars directory listed, an entry that is a directory
    never makes [FileSystemAvatar.GetAvatarURL] succeed: when every entry
    whose stem is the user's [UniqueID()] is a directory, the result is
    [("", ErrNoAvatarURL)]; and the URL returned is that of the first
    entry, in listing order, that is not a directory and whose stem is
    the [UniqueID()], whatever matches later and whatever directories
    come before. *)
Theorem FileSystemAvatar_skips_dirs_first_match
    (u : ChatUser) (fs : FileSystem) (files : list FileInfo) :
  fs !! "avatars" = Some files ->
  ((forall g, g ∈ files -> stem g = UniqueID u -> IsDir g = true) ->
   result (GetAvatarURL UseFileSystemAvatar u) fs = ("", ErrNoAvatarURL))
  /\ (forall pre file post,
      files = pre ++ file :: post ->
      (forall g, g ∈ pre -> IsDir g = false -> stem g <> UniqueID u) ->
      IsDir file = false ->
      stem file = UniqueID u ->
      result (GetAvatarURL UseFileSystemAvatar u) fs
      = ("/avatars/" +:+ Name file, ErrNil)).
Proof.
  intros Hfiles. unfold result. rewrite FileSystemAvatar_call, Hfiles. simpl.
  split.
  - intros Hdirs. apply range_none. intros g Hin. apply matches_false.
    intros Hdir Hstem. rewrite (Hdirs g Hin Hstem) in Hdir. discriminate Hdir.
  - intros pre file post -> Hpre Hdir Hstem. apply range_first.
    + intros g Hin. apply matches_false. exact (Hpre g Hin).
    + apply matches_spec. split; assumption.
Qed.

(** On the listing u42.d (a directory), u42.jpg, u42.png the directory is
    passed over and the first regular file decides. *)
Lemma FileSystemAvatar_skips_dirs_first_match_witness :
  result (GetAvatarURL UseFileSystemAvatar u42) avatars_dir_and_files
  = ("/avatars/u42.jpg", ErrNil).
Proof.
  apply (proj2 (FileSystemAvatar_skips_dirs_first_match u42
                  avatars_dir_and_files
                  [mkFileInfo "u42.d" true; mkFileInfo "u42.jpg" false;
                   mkFileInfo "u42.png" false] eq_refl)
           [mkFileInfo "u42.d" true] (mkFileInfo "u42.jpg" false)
           [mkFileInfo "u42.png" false]).
  - reflexivity.
  - intros g Hin Hdir. apply list_elem_of_singleton in Hin. subst g.
    discriminate Hdir.
  - reflexivity.
  - reflexivity.
Defined.

(** ** The chain of three strategies on the u42 example *)

Example chain_jpg_png :
  GetAvatarURL chain u42 avatars_jpg_png
  = (("/avatars/u42.jpg", ErrNil), avatars_jpg_png).
Proof. vm_compute. reflexivity. Qed.

Example chain_empty_dir :
  result (GetAvatarURL chain u42) {[ "avatars" := [] ]}
  = ("//www.gravatar.com/avatar/u42", ErrNil).
Proof. vm_compute. reflexivity. Qed.

(** C5, as stated, fails: a listing that contains the regular file
    u42.png may list another regular file with stem u42 before it, and
    the chain then resolves to that file. *)
Lemma chain_u42_png_counterexample :
  ~ (forall (u : ChatUser) (fs : FileSystem) (files : list FileInfo),
        AvatarURL u = "" ->
        UniqueID u = "u42" ->
        fs !! "avatars" = Some files ->
        mkFileInfo "u42.png" false ∈ files ->
        GetAvatarURL chain u fs = (("/avatars/u42.png", ErrNil), fs)).
Proof.
  intros Hclaim.
  specialize (Hclaim u42 avatars_jpg_png
                [mkFileInfo "u42.jpg" false; mkFileInfo "u42.png" false]
                eq_refl eq_refl eq_refl).
  rewrite chain_jpg_png in Hclaim.
  assert (Hin : mkFileInfo "u42.png" false
                ∈ [mkFileInfo "u42.jpg" false; mkFileInfo "u42.png" false])
    by (apply list_elem_of_further, list_elem_of_here).
  specialize (Hclaim Hin). discriminate Hclaim.
Qed.

(** C5, amended: for a user with [AvatarURL() = ""] and
    [UniqueID() = "u42"], and an avatars directory whose listing contains
    the regular file u42.png with no regular file of stem u42 listed
    before it, the chain [AuthAvatar, FileSystemAvatar, GravatarAvatar]
    resolves to ["/avatars/u42.png"] with a nil error. *)
Theorem chain_u42_first_png
    (u : ChatUser) (fs : FileSystem) (pre post : list FileInfo) :
  AvatarURL u = "" ->
  UniqueID u = "u42" ->
  fs !! "avatars" = Some (pre ++ mkFileInfo "u42.png" false :: post) ->
  (forall g, g ∈ pre -> IsDir g = false -> stem g <> "u42") ->
  GetAvatarURL chain u fs = (("/avatars/u42.png", ErrNil), fs).
Proof.
  intros Hurl Hid Hfiles Hpre. unfold chain.
  rewrite TryAvatars_cons.
  change (GetAvatarURL (iface UseAuthAvatar) u fs)
    with (GetAvatarURL UseAuthAvatar u fs).
  rewrite AuthAvatar_call, Hurl. simpl.
  rewrite TryAvatars_cons.
  change (GetAvatarURL (iface UseFileSystemAvatar) u fs)
    with (GetAvatarURL UseFileSystemAvatar u fs).
  rewrite FileSystemAvatar_call, Hfiles.
  rewrite (range_first u pre (mkFileInfo "u42.png" false) post).
  - reflexivity.
  - intros g Hin. apply matches_false. rewrite Hid. exact (Hpre g Hin).
  - apply matches_spec. rewrite Hid. split; reflexivity.
Qed.

(** The spec's example: the directory lists u42.png alone. *)
Lemma chain_u42_first_png_witness :
  GetAvatarURL chain u42 avatars_png = (("/avatars/u42.png", ErrNil), avatars_png).
Proof.
  apply (chain_u42_first_png u42 avatars_png [] []).
  - reflexivity.
  - reflexivity.
  - reflexivity.
  - intros g Hin. apply elem_of_nil in Hin. contradiction.
Defined.

(** ** Statelessness and determinism *)

Lemma builtin_stateless (s : AvatarValue) (u : ChatUser) (fs1 fs2 : FileSystem) :
  builtin s ->
  fs1 !! "avatars" = fs2 !! "avatars" ->
  exists r, GetAvatarURL s u fs1 = (r, fs1) /\ GetAvatarURL s u fs2 = (r, fs2).
Proof.
  intros Hs Hdir. destruct Hs.
  - change (GetAvatarURL (iface UseAuthAvatar) u)
      with (GetAvatarURL UseAuthAvatar u).
    rewrite !AuthAvatar_call. eauto.
  - change (GetAvatarURL (iface UseGravatar) u)
      with (GetAvatarURL UseGravatar u).
    rewrite !GravatarAvatar_call. eauto.
  - change (GetAvatarURL (iface UseFileSystemAvatar) u)
      with (GetAvatarURL UseFileSystemAvatar u).
    rewrite !FileSystemAvatar_call, Hdir. eauto.
Qed.

Lemma TryAvatars_stateless (a : TryAvatars) (u : ChatUser) (fs1 fs2 : FileSystem) :
  Forall builtin a ->
  fs1 !! "avatars" = fs2 !! "avatars" ->
  exists r, GetAvatarURL a u fs1 = (r, fs1) /\ GetAvatarURL a u fs2 = (r, fs2).
Proof.
  intros Ha Hdir. induction Ha as [| s a' Hs _ IH].
  - exists ("", ErrNoAvatarURL). split; reflexivity.
  - destruct (builtin_stateless s u fs1 fs2 Hs Hdir) as ([url err] & H1 & H2).
    rewrite !TryAvatars_cons, H1, H2.
    destruct (error_is_nil err); [eauto | exact IH].
Qed.

Lemma twice_same {A : Type} (m : IO A) (fs : FileSystem) (r : A) :
  m fs = (r, fs) ->
  (r1 ← m; r2 ← m; mret (r1, r2)) fs = ((r, r), fs).
Proof.
  intros Hm. unfold mbind, IO_bind. rewrite Hm, Hm. reflexivity.
Qed.

(** C6: a call of [GetAvatarURL], on a chain of the strategies of
    avatar.go or on one of them, leaves the file system as it was; its
    result is the same on two file systems whose avatars directory lists
    the same; so two calls one after the other return the same result;
    and the results of [AuthAvatar] and [GravatarAvatar] are the same on
    any two file systems. *)
Theorem avatars_stateless_deterministic
    (a : TryAvatars) (u : ChatUser) (fs1 fs2 : FileSystem) :
  Forall builtin a ->
  fs1 !! "avatars" = fs2 !! "avatars" ->
  (after (GetAvatarURL a u) fs1 = fs1
   /\ result (GetAvatarURL a u) fs1 = result (GetAvatarURL a u) fs2
   /\ (r1 ← GetAvatarURL a u; r2 ← GetAvatarURL a u; mret (r1, r2)) fs1
      = ((result (GetAvatarURL a u) fs1, result (GetAvatarURL a u) fs1), fs1))
  /\ (forall s : AvatarValue, builtin s ->
      after (GetAvatarURL s u) fs1 = fs1
      /\ result (GetAvatarURL s u) fs1 = result (GetAvatarURL s u) fs2
      /\ (r1 ← GetAvatarURL s u; r2 ← GetAvatarURL s u; mret (r1, r2)) fs1
         = ((result (GetAvatarURL s u) fs1, result (GetAvatarURL s u) fs1), fs1))
  /\ (forall fs fs' : FileSystem,
      result (GetAvatarURL UseAuthAvatar u) fs
      = result (GetAvatarURL UseAuthAvatar u) fs'
      /\ result (GetAvatarURL UseGravatar u) fs
         = result (GetAvatarURL UseGravatar u) fs').
Proof.
  intros Ha Hdir. split; [| split].
  - destruct (TryAvatars_stateless a u fs1 fs2 Ha Hdir) as (r & H1 & H2).
    unfold after, result. rewrite (twice_same _ fs1 r H1), H1, H2.
    repeat split.
  - intros s Hs.
    destruct (builtin_stateless s u fs1 fs2 Hs Hdir) as (r & H1 & H2).
    unfold after, result. rewrite (twice_same _ fs1 r H1), H1, H2.
    repeat split.
  - intros fs fs'. unfold result.
    rewrite !AuthAvatar_call, !GravatarAvatar_call. split; reflexivity.
Qed.

(** Two file systems that differ outside the avatars directory. *)
Lemma avatars_stateless_deterministic_witness :
  after (GetAvatarURL chain u42) avatars_png = avatars_png
  /\ result (GetAvatarURL chain u42) avatars_png
     = result (GetAvatarURL chain u42) avatars_and_templates.
Proof.
  assert (Ha : Forall builtin chain) by (repeat constructor).
  assert (Hdir : avatars_png !! "avatars" = avatars_and_templates !! "avatars")
    by (vm_compute; reflexivity).
  destruct (avatars_stateless_deterministic chain u42 avatars_png
              avatars_and_templates Ha Hdir) as [(Hafter & Hsame & _) _].
  split; [exact Hafter | exact Hsame].
Defined.

(** ** The room *)

(** C7: handling Leave twice for a connection leaves the live set as
    handling it once does, and handling Leave for a connection that is
    not live returns the room as it was; neither is an error. *)
Theorem Leave_idempotent (r : Room.t) (c : Room.Connection) :
  (exists r1, Room.Leave c r = Room.Ok r1 /\ Room.Leave c r1 = Room.Ok r1)
  /\ Room.run r [Room.ELeave c; Room.ELeave c] = Room.run r [Room.ELeave c]
  /\ (c ∉ Room.live r -> Room.Leave c r = Room.Ok r).
Proof.
  assert (Hgone : forall r', c ∉ Room.live r' -> Room.Leave c r' = Room.Ok r').
  { intros r' Hnot. unfold Room.Leave.
    destruct (decide (c ∈ Room.live r')); [contradiction | reflexivity]. }
  assert (Honce : exists r1, Room.Leave c r = Room.Ok r1 /\ c ∉ Room.live r1).
  { unfold Room.Leave. destruct (decide (c ∈ Room.live r)) as [Hin | Hnot].
    - eexists. split; [reflexivity |]. simpl.
      intros [_ Hne]%elem_of_difference. apply Hne, elem_of_singleton.
      reflexivity.
    - exists r. split; [reflexivity | exact Hnot]. }
  destruct Honce as (r1 & Hleave & Hnot).
  split; [| split].
  - exists r1. split; [exact Hleave | exact (Hgone r1 Hnot)].
  - simpl. rewrite Hleave, (Hgone r1 Hnot). reflexivity.
  - apply Hgone.
Qed.

(** ** Byte strings: append, length, get and substring *)

Lemma append_cons (c : ascii) (a b : string) :
  String c a +:+ b = String c (a +:+ b).
Proof. reflexivity. Qed.

Lemma append_nil_r (a : string) : a +:+ "" = a.
Proof.
  induction a as [| c a IH]; [reflexivity |].
  rewrite append_cons, IH. reflexivity.
Qed.

Lemma append_assoc (a b c : string) : (a +:+ b) +:+ c = a +:+ (b +:+ c).
Proof.
  induction a as [| x a IH]; [reflexivity |].
  rewrite !append_cons, IH. reflexivity.
Qed.

Lemma length_append (a b : string) :
  String.length (a +:+ b) = String.length a + String.length b.
Proof.
  induction a as [| c a IH]; [reflexivity |].
  rewrite append_cons. simpl. rewrite IH. reflexivity.
Qed.

Lemma get_append_r (a e : string) (k : nat) :
  String.get (String.length a + k) (a +:+ e) = String.get k e.
Proof.
  induction a as [| c a IH]; [reflexivity |].
  rewrite append_cons. simpl. exact IH.
Qed.

Lemma substring_all (b : string) : String.substring 0 (String.length b) b = b.
Proof.
  induction b as [| c b IH]; [reflexivity |]. simpl. rewrite IH. reflexivity.
Qed.

Lemma substring_append_r (a b : string) :
  String.substring (String.length a) (String.length b) (a +:+ b) = b.
Proof.
  induction a as [| c a IH]; [apply substring_all |].
  rewrite append_cons. simpl. exact IH.
Qed.

Lemma substring_append_l (a b : string) :
  String.substring 0 (String.length a) (a +:+ b) = a.
Proof.
  induction a as [| c a IH].
  - destruct b; reflexivity.
  - rewrite append_cons. simpl. rewrite IH. reflexivity.
Qed.

Lemma length_append_minus_l (a b : string) :
  String.length (a +:+ b) - String.length a = String.length b.
Proof. rewrite length_append. lia. Qed.

Lemma length_append_minus_r (a b : string) :
  String.length (a +:+ b) - String.length b = String.length a.
Proof. rewrite length_append. lia. Qed.

(** ** strings.TrimSuffix and filepath.Ext *)

Lemma HasSuffix_append (a b : string) : HasSuffix (a +:+ b) b = true.
Proof.
  unfold HasSuffix. rewrite length_append_minus_r, substring_append_r.
  rewrite String.eqb_refl, andb_true_r.
  apply Nat.leb_le. rewrite length_append. lia.
Qed.

Lemma TrimSuffix_append (a b : string) : TrimSuffix (a +:+ b) b = a.
Proof.
  unfold TrimSuffix. rewrite HasSuffix_append, length_append_minus_r.
  apply substring_append_l.
Qed.

Lemma TrimSuffix_empty (s : string) : TrimSuffix s "" = s.
Proof.
  rewrite <- (append_nil_r s) at 1. rewrite TrimSuffix_append. reflexivity.
Qed.

Lemma Ext_loop_S (path : string) (i : nat) :
  Ext_loop path (S i) =
  match String.get i path with
  | Some c =>
      if IsPathSeparator c then ""
      else if Ascii.eqb c "."%char
           then String.substring i (String.length path - i) path
           else Ext_loop path i
  | None => ""
  end.
Proof. reflexivity. Qed.

Lemma plain_get (e : string) (k : nat) (c : ascii) :
  plain e = true ->
  String.get k e = Some c ->
  Ascii.eqb c "."%char = false /\ IsPathSeparator c = false.
Proof.
  revert k. induction e as [| x e IH]; intros k Hplain Hget; [discriminate |].
  simpl in Hplain.
  apply andb_true_iff in Hplain as [Hx He].
  apply andb_true_iff in Hx as [Hdot Hsep].
  destruct k as [| k]; simpl in Hget.
  - injection Hget as <-. split; apply negb_true_iff; assumption.
  - exact (IH k He Hget).
Qed.

Lemma get_lt (e : string) (k : nat) :
  k < String.length e -> exists c, String.get k e = Some c.
Proof.
  revert k. induction e as [| x e IH]; intros k Hk; simpl in Hk; [lia |].
  destruct k as [| k]; simpl; [eauto |]. apply IH. lia.
Qed.

(** The loop of [filepath.Ext] walks over a plain tail without stopping. *)
Lemma Ext_loop_plain_tail (a e : string) (k : nat) :
  plain e = true ->
  k <= String.length e ->
  Ext_loop (a +:+ e) (String.length a + k) = Ext_loop (a +:+ e) (String.length a).
Proof.
  intros Hplain. induction k as [| k IH]; intros Hk.
  - rewrite Nat.add_0_r. reflexivity.
  - rewrite Nat.add_succ_r, Ext_loop_S, get_append_r.
    destruct (get_lt e k) as [c Hc]; [lia |].
    rewrite Hc. destruct (plain_get e k c Hplain Hc) as [-> ->].
    apply IH. lia.
Qed.

Lemma Ext_plain (s : string) : plain s = true -> Ext s = "".
Proof.
  intros Hplain. unfold Ext.
  exact (Ext_loop_plain_tail "" s (String.length s) Hplain (le_n _)).
Qed.

Lemma Ext_loop_last (a e : string) (c : ascii) :
  plain e = true ->
  Ext (a +:+ String c e) = Ext_loop (a +:+ String c e) (S (String.length a)).
Proof.
  intros Hplain. unfold Ext.
  assert (Hsplit : a +:+ String c e = (a +:+ String c "") +:+ e)
    by (rewrite append_assoc; reflexivity).
  assert (Hlen : String.length (a +:+ String c "") = S (String.length a))
    by (rewrite length_append; simpl; lia).
  rewrite Hsplit at 1 2. rewrite length_append, Hlen, <- Hlen.
  rewrite (Ext_loop_plain_tail (a +:+ String c "") e (String.length e) Hplain (le_n _)).
  rewrite <- Hsplit. reflexivity.
Qed.

Lemma Ext_dot (a e : string) :
  plain e = true -> Ext (a +:+ String "."%char e) = String "."%char e.
Proof.
  intros Hplain. rewrite (Ext_loop_last a e _ Hplain), Ext_loop_S.
  rewrite <- (Nat.add_0_r (String.length a)) at 1. rewrite get_append_r.
  simpl String.get. cbv iota. change (IsPathSeparator "."%char) with false.
  change (Ascii.eqb "."%char "."%char) with true. cbv iota.
  rewrite length_append_minus_l. apply substring_append_r.
Qed.

Lemma Ext_slash (a e : string) :
  plain e = true -> Ext (a +:+ String "/"%char e) = "".
Proof.
  intros Hplain. rewrite (Ext_loop_last a e _ Hplain), Ext_loop_S.
  rewrite <- (Nat.add_0_r (String.length a)) at 1. rewrite get_append_r.
  reflexivity.
Qed.

(** A byte string is plain, or splits at its last dot or separator. *)
Lemma last_special (s : string) :
  plain s = true
  \/ exists a c e, s = a +:+ String c e /\ plain e = true /\
                   (c = "."%char \/ c = "/"%char).
Proof.
  induction s as [| x s IH]; [left; reflexivity |].
  destruct IH as [Hplain | (a & c & e & -> & He & Hc)].
  - destruct (Ascii.eqb_spec x "."%char) as [-> | Hdot].
    + right. exists "", "."%char, s. auto.
    + destruct (Ascii.eqb_spec x "/"%char) as [-> | Hsep].
      * right. exists "", "/"%char, s. auto.
      * left. simpl. rewrite Hplain.
        apply Ascii.eqb_neq in Hdot. unfold IsPathSeparator.
        apply Ascii.eqb_neq in Hsep. rewrite Hdot, Hsep. reflexivity.
  - right. exists (String x a), c, e. auto.
Qed.

(** What [filepath.Ext] returns: nothing, or the last dot of the path with
    the plain bytes after it; the rest of the path is what
    [strings.TrimSuffix] leaves. *)
Lemma Ext_cases (s : string) :
  (Ext s = "" /\ TrimSuffix s (Ext s) = s)
  \/ exists a e, s = a +:+ String "."%char e /\ plain e = true /\
                 Ext s = String "."%char e /\ TrimSuffix s (Ext s) = a.
Proof.
  destruct (last_special s) as [Hplain | (a & c & e & -> & He & [-> | ->])].
  - left. rewrite (Ext_plain s Hplain). split; [reflexivity | apply TrimSuffix_empty].
  - right. exists a, e. rewrite (Ext_dot a e He).
    repeat split; [exact He | apply TrimSuffix_append].
  - left. rewrite (Ext_slash a e He). split; [reflexivity | apply TrimSuffix_empty].
Qed.

(** ** How chains compose *)

(** X1: a chain [a ++ b] is the chain [a], followed, when [a] fails, by
    the chain [b] on the file system that [a] left; when [a] succeeds,
    no strategy of [b] is called. *)
Theorem TryAvatars_append (a b : TryAvatars) (u : ChatUser) (fs : FileSystem) :
  GetAvatarURL (a ++ b) u fs =
  match GetAvatarURL a u fs with
  | ((url, err), fs1) =>
      if error_is_nil err then ((url, err), fs1) else GetAvatarURL b u fs1
  end.
Proof.
  revert fs. induction a as [| avatar a' IH]; intros fs.
  - rewrite TryAvatars_nil. reflexivity.
  - change ((avatar :: a') ++ b) with (avatar :: (a' ++ b)).
    rewrite !TryAvatars_cons.
    destruct (GetAvatarURL avatar u fs) as [[url err] fs1].
    destruct (error_is_nil err); [reflexivity | apply IH].
Qed.

(** X2: whatever its strategies return, a chain returns either a nil
    error or exactly [("", ErrNoAvatarURL)]: the error value and the URL
    of a failed strategy are never passed on. *)
Theorem TryAvatars_error_normalised (a : TryAvatars) (u : ChatUser) (fs : FileSystem) :
  snd (result (GetAvatarURL a u) fs) = ErrNil
  \/ result (GetAvatarURL a u) fs = ("", ErrNoAvatarURL).
Proof.
  revert fs. induction a as [| avatar a' IH]; intros fs.
  - right. reflexivity.
  - unfold result in *. rewrite TryAvatars_cons.
    destruct (GetAvatarURL avatar u fs) as [[url err] fs1].
    destruct (error_is_nil err); [left; reflexivity | apply IH].
Qed.

(** X3: the strategies that follow [UseGravatar] in a chain are never
    used: the chain behaves as the chain cut after [UseGravatar]. *)
Theorem TryAvatars_after_gravatar_unused
    (pre post : TryAvatars) (u : ChatUser) (fs : FileSystem) :
  GetAvatarURL (pre ++ iface UseGravatar :: post) u fs
  = GetAvatarURL (pre ++ [iface UseGravatar]) u fs.
Proof.
  revert fs. induction pre as [| avatar pre IH]; intros fs.
  - simpl app. rewrite !TryAvatars_cons.
    change (GetAvatarURL (iface UseGravatar) u fs)
      with (GetAvatarURL UseGravatar u fs).
    rewrite GravatarAvatar_call. reflexivity.
  - change ((avatar :: pre) ++ ?l) with (avatar :: (pre ++ l)).
    rewrite !TryAvatars_cons.
    destruct (GetAvatarURL avatar u fs) as [[url err] fs1].
    destruct (error_is_nil err); [reflexivity | apply IH].
Qed.

Lemma range_success_url (u : ChatUser) (files : list FileInfo) :
  snd (FileSystemAvatar_range u files) = ErrNil ->
  exists file, file ∈ files /\ matches u file = true /\
               fst (FileSystemAvatar_range u files) = "/avatars/" +:+ Name file.
Proof.
  destruct (range_cases u files)
    as [(pre & file & post & -> & Hpre & Hfile) | Hno].
  - rewrite (range_first u pre file post Hpre Hfile). intros _.
    exists file. split; [| split; [exact Hfile | reflexivity]].
    apply elem_of_app. right. apply list_elem_of_here.
  - rewrite (range_none u files Hno). discriminate.
Qed.

Lemma builtin_success_url (s : AvatarValue) (u : ChatUser) (fs : FileSystem) :
  builtin s ->
  snd (result (GetAvatarURL s u) fs) = ErrNil ->
  fst (result (GetAvatarURL s u) fs) <> "".
Proof.
  intros Hs. destruct Hs; unfold result.
  - change (GetAvatarURL (iface UseAuthAvatar) u fs)
      with (GetAvatarURL UseAuthAvatar u fs).
    rewrite AuthAvatar_call.
    destruct (String.eqb_spec (AvatarURL u) ""); simpl; congruence.
  - change (GetAvatarURL (iface UseGravatar) u fs)
      with (GetAvatarURL UseGravatar u fs).
    rewrite GravatarAvatar_call. simpl. intros _ H. discriminate H.
  - change (GetAvatarURL (iface UseFileSystemAvatar) u fs)
      with (GetAvatarURL UseFileSystemAvatar u fs).
    rewrite FileSystemAvatar_call. destruct (fs !! "avatars") as [files |].
    + simpl. intros Hok.
      destruct (range_success_url u files Hok) as (file & _ & _ & ->).
      intros H. discriminate H.
    + simpl. discriminate.
Qed.

(** X4: a chain of avatar.go's own strategies returns the empty URL
    exactly when it returns a non-nil error: a success always carries a
    URL, a failure never does. *)
Theorem builtin_chain_url_empty_iff_error
    (a : TryAvatars) (u : ChatUser) (fs : FileSystem) :
  Forall builtin a ->
  (fst (result (GetAvatarURL a u) fs) = ""
   <-> snd (result (GetAvatarURL a u) fs) <> ErrNil).
Proof.
  intros Ha. revert fs. induction Ha as [| s a' Hs Ha' IH]; intros fs.
  - unfold result. rewrite TryAvatars_nil. simpl. split; [discriminate | reflexivity].
  - pose proof (builtin_success_url s u fs Hs) as Hurl.
    destruct (builtin_stateless s u fs fs Hs eq_refl) as ([url err] & Hcall & _).
    unfold result in *. rewrite TryAvatars_cons. rewrite Hcall in *. simpl in Hurl.
    destruct (error_is_nil err) eqn:Herr.
    + apply error_is_nil_true in Herr. simpl. split; [| congruence].
      intros Hempty. exfalso. exact (Hurl Herr Hempty).
    + apply IH.
Qed.

(** The spec's chain on the directory with u42.png: a URL and no error. *)
Lemma builtin_chain_url_empty_iff_error_witness :
  fst (result (GetAvatarURL chain u42) avatars_png) = ""
  <-> snd (result (GetAvatarURL chain u42) avatars_png) <> ErrNil.
Proof.
  apply (builtin_chain_url_empty_iff_error chain u42 avatars_png).
  repeat constructor.
Defined.

Example broken_chain :
  result (GetAvatarURL [iface UseBrokenAvatar] u42) avatars_png
  = ("", ErrNoAvatarURL).
Proof. reflexivity. Qed.

(** ** File names, stems and extensions in FileSystemAvatar *)

Lemma stem_cases (file : FileInfo) :
  (Ext (Name file) = "" /\ stem file = Name file)
  \/ exists e, plain e = true /\ Ext (Name file) = String "."%char e /\
               Name file = stem file +:+ String "."%char e.
Proof.
  unfold stem. destruct (Ext_cases (Name file))
    as [[Hext Htrim] | (a & e & Hname & He & Hext & Htrim)].
  - left. split; assumption.
  - right. exists e. rewrite Htrim. repeat split; assumption.
Qed.

Lemma stem_id_ext (id ext : string) (dir : bool) :
  plain ext = true ->
  stem (mkFileInfo (id +:+ "." +:+ ext) dir) = id.
Proof.
  intros Hplain. unfold stem. simpl Name.
  change ("." +:+ ext) with (String "."%char ext).
  rewrite (Ext_dot id ext Hplain). apply TrimSuffix_append.
Qed.

(** X5: when [FileSystemAvatar.GetAvatarURL] succeeds, the URL is
    ["/avatars/"], the user's [UniqueID()] and an extension, where the
    extension is empty or a dot followed by bytes that are neither a dot
    nor a path separator; and the directory lists a regular file of that
    name. *)
Theorem FileSystemAvatar_url_form (u : ChatUser) (fs : FileSystem) :
  snd (result (GetAvatarURL UseFileSystemAvatar u) fs) = ErrNil ->
  exists ext,
    fst (result (GetAvatarURL UseFileSystemAvatar u) fs)
    = "/avatars/" +:+ UniqueID u +:+ ext
    /\ (ext = "" \/ exists e, ext = String "."%char e /\ plain e = true)
    /\ mkFileInfo (UniqueID u +:+ ext) false ∈ listing fs.
Proof.
  rewrite FileSystemAvatar_listing. intros Hok.
  destruct (range_success_url u (listing fs) Hok) as (file & Hin & Hfile & ->).
  apply matches_spec in Hfile as [Hdir Hstem].
  assert (Hfile : file = mkFileInfo (Name file) false)
    by (destruct file; simpl in Hdir; rewrite Hdir; reflexivity).
  destruct (stem_cases file) as [[_ Hname] | (e & He & _ & Hname)].
  - exists "". rewrite append_nil_r, <- Hstem, Hname, <- Hfile. auto.
  - exists (String "."%char e). rewrite <- Hstem, <- Hname, <- Hfile.
    split; [reflexivity | split; [right; eauto | exact Hin]].
Qed.

Lemma FileSystemAvatar_url_form_witness :
  exists ext,
    fst (result (GetAvatarURL UseFileSystemAvatar u42) avatars_jpg_png)
    = "/avatars/" +:+ UniqueID u42 +:+ ext
    /\ (ext = "" \/ exists e, ext = String "."%char e /\ plain e = true)
    /\ mkFileInfo (UniqueID u42 +:+ ext) false ∈ listing avatars_jpg_png.
Proof.
  apply (FileSystemAvatar_url_form u42 avatars_jpg_png). reflexivity.
Defined.

(** X6: a regular file named [UniqueID().ext], with [ext] free of dots
    and path separators, makes [FileSystemAvatar.GetAvatarURL] succeed,
    whatever bytes the identifier is made of; when no regular file with
    that stem is listed before it, the URL is [/avatars/UniqueID().ext]. *)
Theorem FileSystemAvatar_finds_id_ext
    (u : ChatUser) (fs : FileSystem) (pre post : list FileInfo) (ext : string) :
  plain ext = true ->
  fs !! "avatars"
  = Some (pre ++ mkFileInfo (UniqueID u +:+ "." +:+ ext) false :: post) ->
  snd (result (GetAvatarURL UseFileSystemAvatar u) fs) = ErrNil
  /\ ((forall g, g ∈ pre -> IsDir g = false -> stem g <> UniqueID u) ->
      GetAvatarURL UseFileSystemAvatar u fs
      = (("/avatars/" +:+ UniqueID u +:+ "." +:+ ext, ErrNil), fs)).
Proof.
  intros Hplain Hfiles.
  assert (Hfile : matches u (mkFileInfo (UniqueID u +:+ "." +:+ ext) false) = true).
  { apply matches_spec. split; [reflexivity | apply stem_id_ext, Hplain]. }
  unfold result. rewrite FileSystemAvatar_call, Hfiles. simpl. split.
  - destruct (range_cases u (pre ++ mkFileInfo (UniqueID u +:+ "." +:+ ext) false :: post))
      as [(pre' & file & post' & Heq & Hpre' & Hfile') | Hno].
    + rewrite Heq, (range_first u pre' file post' Hpre' Hfile'). reflexivity.
    + rewrite Hno in Hfile; [discriminate Hfile |].
      apply elem_of_app. right. apply list_elem_of_here.
  - intros Hpre. rewrite (range_first u pre _ post); [reflexivity | | exact Hfile].
    intros g Hin. apply matches_false. exact (Hpre g Hin).
Qed.

Lemma FileSystemAvatar_finds_id_ext_witness :
  snd (result (GetAvatarURL UseFileSystemAvatar john_doe)
         {[ "avatars" := [mkFileInfo "john.jpg" false;
                          mkFileInfo "john.doe.png" false] ]}) = ErrNil
  /\ ((forall g, g ∈ [mkFileInfo "john.jpg" false] ->
                 IsDir g = false -> stem g <> UniqueID john_doe) ->
      GetAvatarURL UseFileSystemAvatar john_doe
        {[ "avatars" := [mkFileInfo "john.jpg" false;
                         mkFileInfo "john.doe.png" false] ]}
      = (("/avatars/" +:+ UniqueID john_doe +:+ "." +:+ "png", ErrNil),
         {[ "avatars" := [mkFileInfo "john.jpg" false;
                          mkFileInfo "john.doe.png" false] ]})).
Proof.
  apply (FileSystemAvatar_finds_id_ext john_doe
           {[ "avatars" := [mkFileInfo "john.jpg" false;
                            mkFileInfo "john.doe.png" false] ]}
           [mkFileInfo "john.jpg" false] [] "png").
  - reflexivity.
  - reflexivity.
Defined.

(** X7: a regular file whose name is the [UniqueID()] itself, without an
    extension, is found if and only if [filepath.Ext] sees no extension
    in the identifier: for an identifier such as john.doe the file
    john.doe has the stem john and is not the user's. *)
Theorem FileSystemAvatar_exact_name_iff_no_ext
    (u : ChatUser) (fs : FileSystem) :
  fs !! "avatars" = Some [mkFileInfo (UniqueID u) false] ->
  (snd (result (GetAvatarURL UseFileSystemAvatar u) fs) = ErrNil
   <-> Ext (UniqueID u) = "").
Proof.
  intros Hfiles. unfold result. rewrite FileSystemAvatar_call, Hfiles.
  rewrite range_cons. simpl FileSystemAvatar_range.
  destruct (stem_cases (mkFileInfo (UniqueID u) false))
    as [[Hext Hstem] | (e & He & Hext & Hname)]; simpl Name in *.
  - assert (Hm : matches u (mkFileInfo (UniqueID u) false) = true)
      by (apply matches_spec; split; [reflexivity | exact Hstem]).
    rewrite Hm. simpl. split; [intros _; exact Hext | reflexivity].
  - assert (Hm : matches u (mkFileInfo (UniqueID u) false) = false).
    { apply matches_false. intros _ Hstem. rewrite Hstem in Hname.
      apply (f_equal String.length) in Hname.
      rewrite length_append in Hname. simpl in Hname. lia. }
    rewrite Hm, Hext. simpl. split; discriminate.
Qed.

Lemma FileSystemAvatar_exact_name_iff_no_ext_witness :
  snd (result (GetAvatarURL UseFileSystemAvatar john_doe) avatars_john_doe)
  = ErrNil
  <-> Ext (UniqueID john_doe) = "".
Proof.
  apply (FileSystemAvatar_exact_name_iff_no_ext john_doe avatars_john_doe).
  reflexivity.
Defined.

Example john_doe_not_found :
  result (GetAvatarURL UseFileSystemAvatar john_doe) avatars_john_doe
  = ("", ErrNoAvatarURL).
Proof. vm_compute. reflexivity. Qed.

Lemma range_filter_dirs (u : ChatUser) (files : list FileInfo) :
  FileSystemAvatar_range u (List.filter (fun file => negb (IsDir file)) files)
  = FileSystemAvatar_range u files.
Proof.
  induction files as [| file files IH]; [reflexivity |].
  simpl List.filter. destruct (IsDir file) eqn:Hdir; simpl negb; cbv iota.
  - rewrite IH. simpl. rewrite Hdir. reflexivity.
  - simpl. rewrite Hdir, IH. reflexivity.
Qed.

(** X8: the directories among the entries have no part in the result of
    [FileSystemAvatar.GetAvatarURL]: on the listing with its directories
    taken out, the result is the same. *)
Theorem FileSystemAvatar_ignores_directories
    (u : ChatUser) (fs : FileSystem) (files : list FileInfo) :
  fs !! "avatars" = Some files ->
  result (GetAvatarURL UseFileSystemAvatar u)
    (<[ "avatars" := List.filter (fun file => negb (IsDir file)) files ]> fs)
  = result (GetAvatarURL UseFileSystemAvatar u) fs.
Proof.
  intros Hfiles. unfold result.
  rewrite !FileSystemAvatar_call, lookup_insert_eq, Hfiles. simpl.
  apply range_filter_dirs.
Qed.

Lemma FileSystemAvatar_ignores_directories_witness :
  result (GetAvatarURL UseFileSystemAvatar u42)
    (<[ "avatars" := [mkFileInfo "u42.jpg" false; mkFileInfo "u42.png" false] ]>
       avatars_dir_and_files)
  = result (GetAvatarURL UseFileSystemAvatar u42) avatars_dir_and_files.
Proof.
  apply (FileSystemAvatar_ignores_directories u42 avatars_dir_and_files
           [mkFileInfo "u42.d" true; mkFileInfo "u42.jpg" false;
            mkFileInfo "u42.png" false]).
  reflexivity.
Defined.

(** ** The documented order *)

(** X9: in the order that the comment on [TryAvatars.GetAvatarURL]
    gives (FileSystemAvatar, AuthAvatar, Gravatar), the chain never
    fails and leaves the file system as it was; it returns the local
    file's URL when [FileSystemAvatar] finds one, else the user's
    [AvatarURL()] when that is not empty, else the Gravatar URL. *)
Theorem documented_chain_priority (u : ChatUser) (fs : FileSystem) :
  snd (result (GetAvatarURL documented_chain u) fs) = ErrNil
  /\ after (GetAvatarURL documented_chain u) fs = fs
  /\ (snd (result (GetAvatarURL UseFileSystemAvatar u) fs) = ErrNil ->
      result (GetAvatarURL documented_chain u) fs
      = result (GetAvatarURL UseFileSystemAvatar u) fs)
  /\ (snd (result (GetAvatarURL UseFileSystemAvatar u) fs) <> ErrNil ->
      AvatarURL u <> "" ->
      result (GetAvatarURL documented_chain u) fs = (AvatarURL u, ErrNil))
  /\ (snd (result (GetAvatarURL UseFileSystemAvatar u) fs) <> ErrNil ->
      AvatarURL u = "" ->
      result (GetAvatarURL documented_chain u) fs
      = ("//www.gravatar.com/avatar/" +:+ UniqueID u, ErrNil)).
Proof.
  unfold documented_chain, result, after. rewrite TryAvatars_cons.
  change (GetAvatarURL (iface UseFileSystemAvatar) u fs)
    with (GetAvatarURL UseFileSystemAvatar u fs).
  rewrite FileSystemAvatar_call.
  destruct (match fs !! "avatars" with
            | Some files => FileSystemAvatar_range u files
            | None => ("", ErrNoAvatarURL)
            end) as [url err].
  destruct (error_is_nil err) eqn:Herr.
  - apply error_is_nil_true in Herr. subst err. simpl.
    repeat split; intros; congruence.
  - apply error_is_nil_false in Herr.
    rewrite TryAvatars_cons.
    change (GetAvatarURL (iface UseAuthAvatar) u fs)
      with (GetAvatarURL UseAuthAvatar u fs).
    rewrite AuthAvatar_call.
    destruct (String.eqb_spec (AvatarURL u) "") as [Hempty | Hurl]; simpl.
    + repeat split; intros; congruence.
    + repeat split; intros; congruence.
Qed.

(** ** The template handler *)

Example chat_handler_first_request :
  ServeHTTP chat_handler chat_template plain_request
  = (Returns "chat at localhost:8080",
     @mkTemplateHandler toy_lib true "chat.html" (Some "chat at ")).
Proof. vm_compute. reflexivity. Qed.

Example chat_handler_bad_cookie :
  fst (ServeHTTP chat_handler chat_template bad_cookie_request) = Panics.
Proof. vm_compute. reflexivity. Qed.

Section TemplateHandler.

Context `{TemplateLib}.

Lemma once_Do_parse_done (t : templateHandler) (files : Files) :
  once t = true -> once_Do_parse t files = (Returns tt, t).
Proof. intros Hdone. unfold once_Do_parse. rewrite Hdone. reflexivity. Qed.



Lemma ServeHTTP_done (t : templateHandler) (files : Files) (r : Request) :
  once t = true ->
  ServeHTTP t files r =
  (match request_data r with
   | Returns data => templ_Execute t data
   | Panics => Panics
   end, t).
Proof.
  intros Hdone. unfold ServeHTTP. rewrite (once_Do_parse_done t files Hdone).
  destruct (request_data r); reflexivity.
Qed.

Lemma serve_done (t : templateHandler) (requests : list (Files * Request))
    (other : Files) :
  once t = true ->
  serve t requests = serve t (map (fun fr => (other, snd fr)) requests)
  /\ snd (serve t requests) = t.
Proof.
  intros Hdone. induction requests as [| [files r] requests [IH1 IH2]].
  - split; reflexivity.
  - simpl. rewrite (ServeHTTP_done t files r Hdone), (ServeHTTP_done t other r Hdone).
    rewrite <- IH1. destruct (serve t requests) as [responses t2].
    simpl in IH2. subst t2. split; reflexivity.
Qed.

Lemma serve_no_template (t : templateHandler) (requests : list (Files * Request)) :
  once t = true ->
  templ t = None ->
  Forall (fun response => response = Panics) (fst (serve t requests)).
Proof.
  intros Hdone Hnil. induction requests as [| [files r] requests IH].
  - constructor.
  - simpl. rewrite (ServeHTTP_done t files r Hdone).
    pose proof (serve_done t requests files Hdone) as [_ Hsame].
    destruct (serve t requests) as [responses t2]. simpl in *.
    constructor; [| exact IH].
    destruct (request_data r); [| reflexivity].
    unfold templ_Execute. rewrite Hnil. reflexivity.
Qed.


(** X11: when the template cannot be parsed at the first request of a
    new handler, that request panics and so does every later one, also
    after the template file has been put right. *)
Theorem templateHandler_failed_parse_is_final
    (t : templateHandler) (files0 : Files) (r0 : Request)
    (requests : list (Files * Request)) (e : error) :
  once t = false ->
  templ t = None ->
  ParseFiles (Join "templates" (filename t)) files0 = inr e ->
  Forall (fun response => response = Panics)
         (fst (serve t ((files0, r0) :: requests))).
Proof.
  intros Hnew Hnil Hparse. simpl serve.
  unfold ServeHTTP, once_Do_parse. rewrite Hnew, Hparse.
  pose proof (serve_no_template
                (mkTemplateHandler _ true (filename t) (templ t)) requests
                eq_refl Hnil) as Hrest.
  destruct (serve (mkTemplateHandler _ true (filename t) (templ t)) requests)
    as [responses t2].
  simpl in *. constructor; [reflexivity | exact Hrest].
Qed.

(** X12: a request whose auth cookie cannot be decoded panics, but the
    template is parsed before the cookie is read: the handler is loaded
    by that request, and the next request, without a cookie, is rendered
    with the host as its only data. *)
Theorem templateHandler_bad_cookie_still_loads
    (t : templateHandler) (files0 files1 : Files) (r0 r1 : Request)
    (parsed : Template) (authCookie : string) :
  once t = false ->
  ParseFiles (Join "templates" (filename t)) files0 = inl parsed ->
  Cookie r0 "auth" = Some authCookie ->
  FromBase64 authCookie = None ->
  Cookie r1 "auth" = None ->
  serve t [(files0, r0); (files1, r1)]
  = ([Panics; Returns (Execute parsed {[ "Host" := VString (Host r1) ]})],
     mkTemplateHandler _ true (filename t) (Some parsed)).
Proof.
  intros Hnew Hparse Hcookie Hdecode Hnone. simpl serve.
  unfold ServeHTTP at 1. unfold once_Do_parse. rewrite Hnew, Hparse.
  unfold request_data at 1. rewrite Hcookie, Hdecode.
  rewrite ServeHTTP_done by reflexivity.
  unfold request_data. rewrite Hnone. reflexivity.
Qed.

End TemplateHandler.

Lemma templateHandler_failed_parse_is_final_witness :
  Forall (fun response => response = Panics)
         (fst (serve chat_handler
                 [(no_templates, plain_request); (chat_template, plain_request)])).
Proof.
  apply (@templateHandler_failed_parse_is_final toy_lib chat_handler
           no_templates plain_request [(chat_template, plain_request)]
           (ErrOther "open templates/chat.html")).
  - reflexivity.
  - reflexivity.
  - reflexivity.
Defined.

Lemma templateHandler_bad_cookie_still_loads_witness :
  serve chat_handler
    [(chat_template, bad_cookie_request); (no_templates, plain_request)]
  = ([Panics; Returns "chat at localhost:8080"],
     @mkTemplateHandler toy_lib true "chat.html" (Some "chat at ")).
Proof.
  apply (@templateHandler_bad_cookie_still_loads toy_lib chat_handler
           chat_template no_templates bad_cookie_request plain_request
           "chat at " "garbage").
  - reflexivity.
  - reflexivity.
  - reflexivity.
  - reflexivity.
  - reflexivity.
Defined.

(** ** The contract of the Avatar interface *)

(** X13: each strategy of avatar.go keeps to what the comment on the
    [Avatar] interface asks: it returns a nil error, or exactly
    [("", ErrNoAvatarURL)], never another error (the error of
    [ioutil.ReadDir] is not passed on); so a chain of that one strategy
    returns what the strategy returns. *)
Theorem builtin_keeps_interface_contract
    (s : AvatarValue) (u : ChatUser) (fs : FileSystem) :
  builtin s ->
  (snd (result (GetAvatarURL s u) fs) = ErrNil
   \/ result (GetAvatarURL s u) fs = ("", ErrNoAvatarURL))
  /\ GetAvatarURL [s] u fs = GetAvatarURL s u fs.
Proof.
  intros Hs.
  assert (Hcontract : snd (result (GetAvatarURL s u) fs) = ErrNil
                      \/ result (GetAvatarURL s u) fs = ("", ErrNoAvatarURL)).
  { destruct Hs; unfold result.
    - change (GetAvatarURL (iface UseAuthAvatar) u fs)
        with (GetAvatarURL UseAuthAvatar u fs).
      rewrite AuthAvatar_call.
      destruct (String.eqb (AvatarURL u) ""); [right | left]; reflexivity.
    - left. reflexivity.
    - change (GetAvatarURL (iface UseFileSystemAvatar) u fs)
        with (GetAvatarURL UseFileSystemAvatar u fs).
      rewrite FileSystemAvatar_call. destruct (fs !! "avatars") as [files |].
      + simpl. destruct (range_cases u files)
          as [(pre & file & post & -> & Hpre & Hfile) | Hno].
        * left. rewrite (range_first u pre file post Hpre Hfile). reflexivity.
        * right. apply range_none, Hno.
      + right. reflexivity. }
  split; [exact Hcontract |].
  rewrite TryAvatars_cons. unfold result in Hcontract.
  destruct (GetAvatarURL s u fs) as [[url err] fs1]. simpl in Hcontract.
  destruct Hcontract as [-> | Hfail]; [reflexivity |].
  injection Hfail as -> ->. simpl. apply TryAvatars_nil.
Qed.

(** The avatars directory cannot be read: the error of the failed open
    becomes [ErrNoAvatarURL]. *)
Lemma builtin_keeps_interface_contract_witness :
  (snd (result (GetAvatarURL (iface UseFileSystemAvatar) u42) ∅) = ErrNil
   \/ result (GetAvatarURL (iface UseFileSystemAvatar) u42) ∅
      = ("", ErrNoAvatarURL))
  /\ GetAvatarURL [iface UseFileSystemAvatar] u42 ∅
     = GetAvatarURL (iface UseFileSystemAvatar) u42 ∅.
Proof.
  apply (builtin_keeps_interface_contract (iface UseFileSystemAvatar) u42 ∅).
  constructor.
Defined.
